(** * A shallow embedding of src/vendor/miniaudio.c

    The file is a C shim around the vendored miniaudio library: an opaque
    512-byte configuration blob and five functions.  The embedding follows
    the C code line by line:

    - C memory is a finite map from addresses to cells ([gmap Z cell]);
      [NULL] is address 0, never mapped; [malloc] is a bump allocator whose
      failure is decided by the platform;
    - a C function is a computation [state -> outcome A], where [outcome]
      either returns a new state and a value or is undefined behaviour
      ([UB]: dereferencing a dangling or NULL pointer, freeing a block that
      is not allocated);
    - a trace of the library calls made (malloc, free, and the native
      miniaudio entry points) makes "calls X" and "no call" observable;
    - the vendored miniaudio implementation and the native memory layout of
      [ma_device_config] are not part of the shim: they are the fields of the
      type class [Platform], and every theorem holds for every platform
      (with the stated properties of it where a claim needs them). *)

From stdpp Require Import base gmap list.
From Stdlib Require Import ZArith Lia.

Open Scope Z_scope.

(** ** C values *)

Definition ptr := Z.
Definition NULL : ptr := 0.

Definition byte := Byte.byte.

(** [ma_result]; [MA_SUCCESS] is 0 in miniaudio. *)
Definition ma_result := Z.
Definition MA_SUCCESS : ma_result := 0.

Inductive ma_device_type :=
| ma_device_type_playback
| ma_device_type_capture
| ma_device_type_duplex
| ma_device_type_loopback.

Inductive ma_format :=
| ma_format_unknown
| ma_format_u8
| ma_format_s16
| ma_format_s24
| ma_format_s32
| ma_format_f32.

(** The fields of [ma_device_config] the shim touches; the remaining
    fields of the native struct are kept, uninterpreted, in [rest]. *)
Module Config.
Record t := mk {
    deviceType : ma_device_type;
    sampleRate : Z;
    playback_format : ma_format;
    playback_channels : Z;
    dataCallback : ptr;
    pUserData : ptr;
    rest : list byte
}.
End Config.

(** [ma_device]: the field read by the shim, [sampleRate], and the rest of
    the native record. *)
Module Device.
Record t := mk {
    sampleRate : Z;
    rest : list byte
}.
End Device.

(** Stored bytes, in the style of CompCert's memory values: a plain byte,
    or the [i]-th byte of the object representation of a configuration
    [c] (its value is implementation defined, but it is the same byte for
    the same [c] and [i]). *)
Inductive memval :=
| MByte (b : byte)
| MCfg (c : Config.t) (i : nat).

(** [typedef struct { unsigned char data[512]; } zig_ma_device_config;] *)
Record zig_ma_device_config := { data : list memval }.

Definition zig_ma_device_config_size : nat := 512.

#[global] Instance byte_eq_dec : EqDecision byte := Byte.byte_eq_dec.
#[global] Instance ma_device_type_eq_dec : EqDecision ma_device_type.
Proof. solve_decision. Defined.
#[global] Instance ma_format_eq_dec : EqDecision ma_format.
Proof. solve_decision. Defined.
#[global] Instance config_eq_dec : EqDecision Config.t.
Proof. solve_decision. Defined.
#[global] Instance memval_eq_dec : EqDecision memval.
Proof. solve_decision. Defined.

(** ** Memory and effects *)

Inductive cell :=
| CBlob (b : zig_ma_device_config)   (* a caller's zig_ma_device_config *)
| CDevice (d : Device.t)             (* an ma_device record *)
| CUninit.                           (* fresh malloc'd storage *)

Inductive native_call := Call_ma_device_init | Call_ma_device_start | Call_ma_device_uninit.

Inductive event :=
| EvMalloc (p : ptr)
| EvFree (p : ptr)
| EvCall (f : native_call) (p : ptr).

Record state := mkState {
  mem : gmap Z cell;
  brk : Z;             (* next address the bump allocator hands out *)
  trace : list event
}.

Inductive outcome (A : Type) :=
| Ret (s : state) (a : A)
| UB.
Arguments Ret {A} s a.
Arguments UB {A}.

Definition C (A : Type) := state -> outcome A.

Definition ret {A} (a : A) : C A := fun s => Ret s a.
Definition bind {A B} (m : C A) (k : A -> C B) : C B :=
  fun s => match m s with Ret s' a => k a s' | UB => UB end.

Notation "'let*' x := m 'in' k" := (bind m (fun x => k))
  (at level 200, x name, m at level 100, k at level 200).

Definition set_mem (m : gmap Z cell) (s : state) : state :=
  mkState m (brk s) (trace s).
Definition log (e : event) (s : state) : state :=
  mkState (mem s) (brk s) (trace s ++ [e]).

(** ** The platform: libc's allocator and the vendored miniaudio *)

Class Platform := {
  (* whether malloc fails in a given state *)
  malloc_fails : state -> bool;
  (* sizeof(ma_device_config); a C object has at least one byte *)
  sizeof_ma_device_config : nat;
  sizeof_ma_device_config_pos : (0 < sizeof_ma_device_config)%nat;
  (* ma_device_config_init(deviceType) *)
  ma_device_config_init : ma_device_type -> Config.t;
  (* ma_device_init(NULL, pConfig, pDevice): reads the configuration through
     its const pointer and initialises the pointed-to device *)
  ma_device_init : state -> Config.t -> ma_result * Device.t;
  (* ma_device_start(pDevice) *)
  ma_device_start : state -> Device.t -> ma_result * Device.t;
  (* ma_device_uninit(pDevice), a void function *)
  ma_device_uninit : state -> Device.t -> Device.t
}.

Section Shim.
Context `{Platform}.

(** The object representation of a configuration, and reading
    [sizeof(ma_device_config)] stored bytes back through a
    [const ma_device_config*]: they must be the representation of one
    configuration, anything else is not a configuration. *)
Definition encode_config (c : Config.t) : list memval :=
  map (MCfg c) (seq 0 sizeof_ma_device_config).

Definition decode_config (l : list memval) : option Config.t :=
  match l with
  | MCfg c _ :: _ => if decide (l = encode_config c) then Some c else None
  | _ => None
  end.

(** [_Static_assert(sizeof(zig_ma_device_config) >= sizeof(ma_device_config), ...)] *)
Definition static_assert_ok : bool :=
  Nat.leb sizeof_ma_device_config zig_ma_device_config_size.

(** ** libc *)

(** [memset(dst, c, n)] and [memcpy(dst, src, n)] on the bytes of an object. *)
Definition memset (dst : list memval) (c : byte) (n : nat) : list memval :=
  replicate n (MByte c) ++ drop n dst.

Definition memcpy (dst src : list memval) (n : nat) : list memval :=
  take n src ++ drop n dst.

Definition malloc : C ptr := fun s =>
  if malloc_fails s then Ret s NULL
  else let p := brk s in
       Ret (mkState (<[p := CUninit]> (mem s)) (p + 1) (trace s ++ [EvMalloc p])) p.

(** [free(NULL)] does nothing; freeing an address that is not allocated is
    undefined. *)
Definition free (p : ptr) : C unit := fun s =>
  if Z.eqb p NULL then Ret s tt
  else match mem s !! p with
       | Some _ => Ret (mkState (delete p (mem s)) (brk s) (trace s ++ [EvFree p])) tt
       | None => UB
       end.

(** ** Calls into miniaudio: the pointer arguments are dereferenced *)

Definition call_ma_device_init (pConfig pDevice : ptr) : C ma_result := fun s =>
  match mem s !! pConfig, mem s !! pDevice with
  | Some (CBlob b), Some _ =>
      match decode_config (take sizeof_ma_device_config (data b)) with
      | Some cfg =>
          let s1 := log (EvCall Call_ma_device_init pDevice) s in
          let '(r, d) := ma_device_init s1 cfg in
          Ret (set_mem (<[pDevice := CDevice d]> (mem s1)) s1) r
      | None => UB
      end
  | _, _ => UB
  end.

Definition call_ma_device_start (pDevice : ptr) : C ma_result := fun s =>
  match mem s !! pDevice with
  | Some (CDevice d) =>
      let s1 := log (EvCall Call_ma_device_start pDevice) s in
      let '(r, d') := ma_device_start s1 d in
      Ret (set_mem (<[pDevice := CDevice d']> (mem s1)) s1) r
  | _ => UB
  end.

Definition call_ma_device_uninit (pDevice : ptr) : C unit := fun s =>
  match mem s !! pDevice with
  | Some (CDevice d) =>
      let s1 := log (EvCall Call_ma_device_uninit pDevice) s in
      Ret (set_mem (<[pDevice := CDevice (ma_device_uninit s1 d)]> (mem s1)) s1) tt
  | _ => UB
  end.

(** ** The shim, src/vendor/miniaudio.c *)

(** [cfg.playback.format = ...] and the other assignments of
    [zig_ma_device_config_playback]. *)
Definition set_playback_format (f : ma_format) (c : Config.t) : Config.t :=
  Config.mk (Config.deviceType c) (Config.sampleRate c) f
    (Config.playback_channels c) (Config.dataCallback c) (Config.pUserData c) (Config.rest c).
Definition set_playback_channels (n : Z) (c : Config.t) : Config.t :=
  Config.mk (Config.deviceType c) (Config.sampleRate c) (Config.playback_format c)
    n (Config.dataCallback c) (Config.pUserData c) (Config.rest c).
Definition set_sampleRate (r : Z) (c : Config.t) : Config.t :=
  Config.mk (Config.deviceType c) r (Config.playback_format c)
    (Config.playback_channels c) (Config.dataCallback c) (Config.pUserData c) (Config.rest c).
Definition set_dataCallback (f : ptr) (c : Config.t) : Config.t :=
  Config.mk (Config.deviceType c) (Config.sampleRate c) (Config.playback_format c)
    (Config.playback_channels c) f (Config.pUserData c) (Config.rest c).
Definition set_pUserData (u : ptr) (c : Config.t) : Config.t :=
  Config.mk (Config.deviceType c) (Config.sampleRate c) (Config.playback_format c)
    (Config.playback_channels c) (Config.dataCallback c) u (Config.rest c).

(** [zig_ma_device_config_playback]; [result_init] is the indeterminate
    content of the local [result] before the [memset]. *)
Definition zig_ma_device_config_playback (result_init : list memval)
    (sample_rate : Z) (callback user_data : ptr) : zig_ma_device_config :=
  let result := memset result_init Byte.x00 zig_ma_device_config_size in
  let cfg := ma_device_config_init ma_device_type_playback in
  let cfg := set_playback_format ma_format_f32 cfg in
  let cfg := set_playback_channels 1 cfg in
  let cfg := set_sampleRate sample_rate cfg in
  let cfg := set_dataCallback callback cfg in
  let cfg := set_pUserData user_data cfg in
  {| data := memcpy result (encode_config cfg) sizeof_ma_device_config |}.

Definition zig_ma_device_init (config : ptr) : C ptr :=
  let* device := malloc in
  if Z.eqb device NULL then ret NULL else
  let* r := call_ma_device_init config device in
  if negb (Z.eqb r MA_SUCCESS) then
    let* _ := free device in ret NULL
  else ret device.

Definition zig_ma_device_start (device : ptr) : C unit :=
  let* _ := call_ma_device_start device in ret tt.

Definition zig_ma_device_get_sample_rate (device : ptr) : C Z := fun s =>
  match mem s !! device with
  | Some (CDevice d) => Ret s (Device.sampleRate d)
  | _ => UB
  end.

Definition zig_ma_device_uninit (device : ptr) : C unit :=
  if negb (Z.eqb device NULL) then
    let* _ := call_ma_device_uninit device in free device
  else ret tt.

(** ** The translation unit

    The [_Static_assert] is evaluated by the compiler: the file builds, and
    the five functions exist, only when it holds. *)
Record shim := mkShim {
  sh_config_playback : list memval -> Z -> ptr -> ptr -> zig_ma_device_config;
  sh_init : ptr -> C ptr;
  sh_start : ptr -> C unit;
  sh_get_sample_rate : ptr -> C Z;
  sh_uninit : ptr -> C unit
}.

Definition translation_unit : option shim :=
  if static_assert_ok then
    Some (mkShim zig_ma_device_config_playback zig_ma_device_init
            zig_ma_device_start zig_ma_device_get_sample_rate zig_ma_device_uninit)
  else None.

(** Well-formed memory: [NULL] is never mapped and every mapped address is
    below the allocator's break. *)
Definition wf (s : state) : Prop :=
  0 < brk s /\ map_Forall (fun p _ => 0 < p < brk s) (mem s).

#[global] Instance wf_dec (s : state) : Decision (wf s).
Proof. unfold wf. apply _. Defined.

End Shim.

(** The properties of the vendored library that the claims rely on. *)

(** Modelled from the spec: [ma_device_config_init] of the vendored
    miniaudio.h (not under src/) builds a configuration of the requested
    device type (the spec's "kind=playback" for
    [ma_device_config_init(ma_device_type_playback)]). *)
Definition config_init_sets_type `{Platform} : Prop :=
  forall t, Config.deviceType (ma_device_config_init t) = t.

(** Modelled from the spec: [ma_device_init] of the vendored miniaudio.h
    (not under src/) stores in [device->sampleRate] the rate negotiated with
    the backend: [negotiate] maps a requested rate to the rate the backend
    grants, which is positive; the backend honors a request [r] exactly when
    [negotiate r = r]. *)
Definition negotiates_sample_rate `{Platform} (negotiate : Z -> Z) : Prop :=
  (forall r, 0 < negotiate r) /\
  (forall s c r d, ma_device_init s c = (r, d) -> r = MA_SUCCESS ->
     Device.sampleRate d = negotiate (Config.sampleRate c)).

(** A platform to run the shim on: native configurations of [sz] bytes,
    malloc failing from address 100 on, a backend with no device for a
    requested rate of 7, granting 48000 Hz for a request of 0 (or of a
    negative rate) and the requested rate otherwise; [start] reports
    [start_rc]. *)
Definition demo_negotiate (r : Z) : Z := if Z.leb r 0 then 48000 else r.

Definition demo_config_init (t : ma_device_type) : Config.t :=
  Config.mk t 0 ma_format_unknown 0 0 0 [Byte.x01].

Definition demo_device_init (s : state) (c : Config.t) : ma_result * Device.t :=
  if Z.eqb (Config.sampleRate c) 7 then (-101, Device.mk 0 [])
  else (MA_SUCCESS, Device.mk (demo_negotiate (Config.sampleRate c)) []).

Definition demo_platform (sz : nat) (Hsz : (0 < sz)%nat) (start_rc : ma_result) : Platform := {|
  malloc_fails s := Z.leb 100 (brk s);
  sizeof_ma_device_config := sz;
  sizeof_ma_device_config_pos := Hsz;
  ma_device_config_init := demo_config_init;
  ma_device_init := demo_device_init;
  ma_device_start s d := (start_rc, d);
  ma_device_uninit s d := d
|}.

Lemma four_pos : (0 < 4)%nat.
Proof. lia. Qed.

Definition demo : Platform := demo_platform 4 four_pos MA_SUCCESS.

(** A caller's memory: the blob built for [rate] stored at address 1. *)
Definition demo_state `{Platform} (rate : Z) : state :=
  mkState {[ 1 := CBlob (zig_ma_device_config_playback
                          (replicate 512 (MByte Byte.xff)) rate 11 22) ]} 2 [].

Definition demo_blob (rate : Z) : zig_ma_device_config :=
  zig_ma_device_config_playback (H := demo) (replicate 512 (MByte Byte.xff)) rate 11 22.

Definition demo_cfg (rate : Z) : Config.t :=
  Config.mk ma_device_type_playback rate ma_format_f32 1 11 22 [Byte.x01].

(** The state after a successful [zig_ma_device_init(1)] on [demo_state 44100]. *)
Definition demo_after_init : state :=
  mkState (<[2 := CDevice (Device.mk 44100 [])]> (mem (demo_state (H := demo) 44100))) 3
          [EvMalloc 2; EvCall Call_ma_device_init 2].

Example demo_init_ok :
  zig_ma_device_init (H := demo) 1 (demo_state (H := demo) 44100)
  = Ret (mkState (<[2 := CDevice (Device.mk 44100 [])]>
                  (mem (demo_state (H := demo) 44100))) 3
                 [EvMalloc 2; EvCall Call_ma_device_init 2]) 2.
Proof. reflexivity. Qed.

Example demo_init_fail :
  zig_ma_device_init (H := demo) 1 (demo_state (H := demo) 7)
  = Ret (mkState (mem (demo_state (H := demo) 7)) 3
                 [EvMalloc 2; EvCall Call_ma_device_init 2; EvFree 2]) NULL.
Proof. vm_compute. reflexivity. Qed.

(** [P] with [ma_device_start] reporting [rc] instead of its own result
    code, the device being started the same way. *)
Definition with_start_result (P : Platform) (rc : ma_result) : Platform := {|
  malloc_fails := @malloc_fails P;
  sizeof_ma_device_config := @sizeof_ma_device_config P;
  sizeof_ma_device_config_pos := @sizeof_ma_device_config_pos P;
  ma_device_config_init := @ma_device_config_init P;
  ma_device_init := @ma_device_init P;
  ma_device_start s d := (rc, snd (@ma_device_start P s d));
  ma_device_uninit := @ma_device_uninit P
|}.

(** ** Theorems *)

Section Proofs.
Context `{Platform}.

Lemma length_encode_config c : length (encode_config c) = sizeof_ma_device_config.
Proof. unfold encode_config. by rewrite length_map, length_seq. Qed.

Lemma decode_encode_config c : decode_config (encode_config c) = Some c.
Proof.
  unfold decode_config. pose proof sizeof_ma_device_config_pos as Hpos.
  destruct (encode_config c) as [|m l] eqn:E.
  { apply (f_equal length) in E. rewrite length_encode_config in E. simpl in E. lia. }
  assert (m = MCfg c 0) as ->.
  { unfold encode_config in E. destruct sizeof_ma_device_config; [lia|].
    simpl in E. congruence. }
  rewrite <- E. by rewrite decide_True.
Qed.

(** The bytes of a blob built by [zig_ma_device_config_playback]: the
    representation of the configuration, then zeros. *)
Lemma zig_ma_device_config_playback_data u rate cb ud :
  static_assert_ok = true -> length u = zig_ma_device_config_size ->
  data (zig_ma_device_config_playback u rate cb ud) =
  encode_config
    (set_pUserData ud (set_dataCallback cb (set_sampleRate rate
      (set_playback_channels 1 (set_playback_format ma_format_f32
        (ma_device_config_init ma_device_type_playback))))))
  ++ replicate (zig_ma_device_config_size - sizeof_ma_device_config) (MByte Byte.x00).
Proof.
  unfold static_assert_ok. rewrite Nat.leb_le. intros Hle Hu.
  unfold zig_ma_device_config_playback, memcpy, memset. cbn [data].
  rewrite (drop_ge u) by lia. rewrite app_nil_r.
  rewrite take_ge by (rewrite length_encode_config; lia).
  by rewrite drop_replicate.
Qed.

End Proofs.

(** C2 *)
(** C2: for every sample rate, callback and user data,
    [zig_ma_device_config_playback] returns (it has no error path) a
    512-byte blob whose first [sizeof(ma_device_config)] bytes read back as
    a configuration with device type playback, format f32, one channel, the
    given sample rate, callback and user data, and whose remaining bytes
    are all zero.  This holds whatever the local [result] held before the
    [memset]. *)
Theorem zig_ma_device_config_playback_fields `{Platform} u rate cb ud :
  static_assert_ok = true -> config_init_sets_type ->
  length u = zig_ma_device_config_size ->
  let b := data (zig_ma_device_config_playback u rate cb ud) in
  length b = zig_ma_device_config_size /\
  (exists cfg,
     decode_config (take sizeof_ma_device_config b) = Some cfg /\
     Config.deviceType cfg = ma_device_type_playback /\
     Config.playback_format cfg = ma_format_f32 /\
     Config.playback_channels cfg = 1 /\
     Config.sampleRate cfg = rate /\
     Config.dataCallback cfg = cb /\
     Config.pUserData cfg = ud) /\
  drop sizeof_ma_device_config b =
    replicate (zig_ma_device_config_size - sizeof_ma_device_config) (MByte Byte.x00).
Proof.
  intros Hsa Hty Hu b. subst b.
  pose proof Hsa as Hle. unfold static_assert_ok in Hle. rewrite Nat.leb_le in Hle.
  rewrite zig_ma_device_config_playback_data by done.
  rewrite length_app, length_encode_config, length_replicate.
  split; [lia|]. split.
  - eexists. rewrite take_app_length' by (symmetry; apply length_encode_config).
    rewrite decode_encode_config. split; [reflexivity|].
    simpl. rewrite Hty. repeat split.
  - by rewrite drop_app_length' by (symmetry; apply length_encode_config).
Qed.

(** C9 *)
(** C9: [zig_ma_device_config_playback] is deterministic: two calls with the
    same sample rate, callback and user data return the same 512 bytes,
    whatever the local [result] held before each call's [memset]. *)
Theorem zig_ma_device_config_playback_deterministic `{Platform} u1 u2 rate cb ud :
  length u1 = zig_ma_device_config_size -> length u2 = zig_ma_device_config_size ->
  zig_ma_device_config_playback u1 rate cb ud = zig_ma_device_config_playback u2 rate cb ud.
Proof.
  intros H1 H2. unfold zig_ma_device_config_playback, memset.
  rewrite (drop_ge u1), (drop_ge u2) by lia. reflexivity.
Qed.

(** C4 *)
(** C4 (as amended): the blob type has 512 bytes; the build-time
    [_Static_assert] requires [sizeof(ma_device_config)] to be at most that
    (equality allowed), and the functions the translation unit provides when
    it builds are the shim's functions, which check no size at run time. *)
Theorem zig_ma_device_config_size_static_check :
  zig_ma_device_config_size = 512%nat /\
  forall `{Platform},
    (translation_unit <> None <-> (sizeof_ma_device_config <= zig_ma_device_config_size)%nat) /\
    (static_assert_ok = true ->
     translation_unit =
       Some (mkShim zig_ma_device_config_playback zig_ma_device_init
               zig_ma_device_start zig_ma_device_get_sample_rate zig_ma_device_uninit)).
Proof.
  split; [reflexivity|]. intros P. unfold translation_unit, static_assert_ok.
  split.
  - destruct (Nat.leb_spec sizeof_ma_device_config zig_ma_device_config_size); split;
      intros; first [done | lia].
  - intros ->. reflexivity.
Qed.

Lemma size_512_pos : (0 < 512)%nat.
Proof. lia. Qed.

(** C4: a native configuration of exactly 512 bytes passes the static
    assertion, so the blob is not checked to be strictly larger. *)
Lemma zig_ma_device_config_equal_size_builds :
  let P := demo_platform 512 size_512_pos MA_SUCCESS in
  translation_unit (H := P) <> None /\
  ~ (sizeof_ma_device_config (Platform := P) < zig_ma_device_config_size)%nat.
Proof. simpl. split; [discriminate | cbv; lia]. Qed.

Section InitProofs.
Context `{Platform}.

Lemma wf_brk_fresh s : wf s -> mem s !! brk s = None.
Proof.
  intros [_ Hm]. destruct (mem s !! brk s) as [c|] eqn:E; [|done].
  apply Hm in E. lia.
Qed.

Lemma wf_mapped_ne s p c : wf s -> mem s !! p = Some c -> p <> brk s /\ p <> NULL.
Proof. intros [_ Hm] E. apply Hm in E. unfold NULL. lia. Qed.

Lemma wf_brk_not_null s : wf s -> Z.eqb (brk s) NULL = false.
Proof. intros [Hb _]. apply Z.eqb_neq. unfold NULL. lia. Qed.

End InitProofs.

(** C1 *)
(** C1: [zig_ma_device_init] on a valid configuration blob returns [NULL]
    exactly on an error, without leaking: when malloc fails it returns [NULL]
    with the state untouched (no native call); otherwise the fresh non-NULL
    block is handed to [ma_device_init], and on a native failure it is freed
    (memory is exactly as before the call) and [NULL] is returned, while on
    success the block, holding the device [ma_device_init] initialised, is
    returned. *)
Theorem zig_ma_device_init_result `{Platform} s config b cfg :
  wf s -> mem s !! config = Some (CBlob b) ->
  decode_config (take sizeof_ma_device_config (data b)) = Some cfg ->
  (malloc_fails s = true -> zig_ma_device_init config s = Ret s NULL) /\
  (malloc_fails s = false ->
     let p := brk s in
     let s1 := log (EvCall Call_ma_device_init p)
                 (mkState (<[p := CUninit]> (mem s)) (p + 1) (trace s ++ [EvMalloc p])) in
     p <> NULL /\ mem s !! p = None /\
     (fst (ma_device_init s1 cfg) = MA_SUCCESS ->
        zig_ma_device_init config s =
        Ret (set_mem (<[p := CDevice (snd (ma_device_init s1 cfg))]> (mem s1)) s1) p) /\
     (fst (ma_device_init s1 cfg) <> MA_SUCCESS ->
        zig_ma_device_init config s =
        Ret (mkState (mem s) (p + 1) (trace s1 ++ [EvFree p])) NULL)).
Proof.
  intros Hwf Hcfg Hdec.
  pose proof (wf_brk_fresh s Hwf) as Hfresh.
  destruct (wf_mapped_ne s config _ Hwf Hcfg) as [Hne _].
  pose proof (wf_brk_not_null s Hwf) as Hnn.
  split; intros Hm.
  { unfold zig_ma_device_init, bind, malloc, ret. rewrite Hm. reflexivity. }
  intros p s1. subst p. split; [by apply Z.eqb_neq|]. split; [done|].
  unfold zig_ma_device_init, bind, malloc, ret. rewrite Hm, Hnn. unfold call_ma_device_init. cbn [mem].
  rewrite lookup_insert_ne by congruence. rewrite Hcfg, lookup_insert_eq, Hdec.
  fold s1. destruct (ma_device_init s1 cfg) as [r d] eqn:E. cbn [fst snd].
  split; intros Hr.
  - subst r. reflexivity.
  - apply Z.eqb_neq in Hr. rewrite Hr. cbn.
    unfold free. rewrite Hnn. cbn. rewrite lookup_insert_eq.
    rewrite !delete_insert_eq, delete_id by done. reflexivity.
Qed.

(** C8 *)
(** C8: [zig_ma_device_init] never writes the caller's configuration blob:
    whenever the call returns (a handle or [NULL]), the blob holds the same
    bytes as before. *)
Theorem zig_ma_device_init_preserves_config `{Platform} s config b s' r :
  wf s -> mem s !! config = Some (CBlob b) ->
  zig_ma_device_init config s = Ret s' r ->
  mem s' !! config = Some (CBlob b).
Proof.
  intros Hwf Hcfg Hrun.
  destruct (wf_mapped_ne s config _ Hwf Hcfg) as [Hne _].
  pose proof (wf_brk_not_null s Hwf) as Hnn.
  unfold zig_ma_device_init, bind, malloc, ret in Hrun.
  destruct (malloc_fails s).
  { injection Hrun as <- _. exact Hcfg. }
  rewrite Hnn in Hrun. unfold call_ma_device_init in Hrun. cbn [mem] in Hrun.
  rewrite lookup_insert_ne in Hrun by congruence.
  rewrite Hcfg, lookup_insert_eq in Hrun.
  destruct (decode_config _); [|discriminate].
  destruct (ma_device_init _ _) as [rc d].
  destruct (negb (Z.eqb rc MA_SUCCESS)).
  - unfold free in Hrun. rewrite Hnn in Hrun. cbn in Hrun.
    rewrite lookup_insert_eq in Hrun. injection Hrun as <- _. cbn.
    rewrite lookup_delete_ne by congruence.
    rewrite !lookup_insert_ne by congruence. exact Hcfg.
  - injection Hrun as <- _. cbn.
    rewrite !lookup_insert_ne by congruence. exact Hcfg.
Qed.

(** C3 *)
(** C3: [zig_ma_device_uninit(NULL)] returns with the state untouched (no
    native call, nothing freed); on a non-NULL live handle it calls
    [ma_device_uninit] on it and then frees the block. *)
Theorem zig_ma_device_uninit_spec `{Platform} s :
  zig_ma_device_uninit NULL s = Ret s tt /\
  forall p d, p <> NULL -> mem s !! p = Some (CDevice d) ->
    zig_ma_device_uninit p s =
    Ret (mkState (delete p (mem s)) (brk s)
           (trace s ++ [EvCall Call_ma_device_uninit p; EvFree p])) tt.
Proof.
  split; [reflexivity|]. intros p d Hp Hd.
  apply Z.eqb_neq in Hp.
  unfold zig_ma_device_uninit. rewrite Hp. cbn [negb].
  unfold bind, call_ma_device_uninit. rewrite Hd. cbn.
  unfold free. rewrite Hp. cbn. rewrite lookup_insert_eq, delete_insert_eq.
  by rewrite <- app_assoc.
Qed.

(** C5 *)
(** C5: [zig_ma_device_start] returns nothing, and what it does cannot
    depend on the result code of [ma_device_start]: on every platform, every
    other result code (a failure included) gives the very same outcome; on a
    live handle it returns after the native call. *)
Theorem zig_ma_device_start_discards_result (P : Platform) rc device s :
  zig_ma_device_start (H := P) device s =
  zig_ma_device_start (H := with_start_result P rc) device s /\
  forall d, mem s !! device = Some (CDevice d) ->
    exists s', zig_ma_device_start (H := P) device s = Ret s' tt /\
               trace s' = trace s ++ [EvCall Call_ma_device_start device].
Proof.
  split.
  - unfold zig_ma_device_start, bind, call_ma_device_start, ret.
    destruct (mem s !! device) as [[| |]|]; try reflexivity.
    cbn. destruct (@ma_device_start P _ _). reflexivity.
  - intros d Hd. unfold zig_ma_device_start, bind, call_ma_device_start, ret.
    rewrite Hd. destruct (@ma_device_start P _ _). eexists. split; reflexivity.
Qed.

(** C6 *)
(** C6 (against the spec's model of [ma_device_init]): after a successful
    [zig_ma_device_init] on a blob built for [rate], the handle is
    non-NULL and [zig_ma_device_get_sample_rate] returns the device's
    stored [sampleRate], the rate the backend negotiated for [rate]; it is
    positive, and it is [rate] when the backend honors the request. *)
Theorem zig_ma_device_get_sample_rate_after_init `{Platform} negotiate
    s config u rate cb ud s' p :
  negotiates_sample_rate negotiate -> static_assert_ok = true -> wf s ->
  length u = zig_ma_device_config_size ->
  mem s !! config = Some (CBlob (zig_ma_device_config_playback u rate cb ud)) ->
  zig_ma_device_init config s = Ret s' p -> p <> NULL ->
  (exists d, mem s' !! p = Some (CDevice d) /\ Device.sampleRate d = negotiate rate) /\
  zig_ma_device_get_sample_rate p s' = Ret s' (negotiate rate) /\
  0 < negotiate rate /\
  (negotiate rate = rate -> zig_ma_device_get_sample_rate p s' = Ret s' rate).
Proof.
  intros [Hpos Hneg] Hsa Hwf Hu Hcfg Hrun Hp.
  destruct (wf_mapped_ne s config _ Hwf Hcfg) as [Hne _].
  pose proof (wf_brk_not_null s Hwf) as Hnn.
  unfold zig_ma_device_init, bind, malloc, ret in Hrun.
  destruct (malloc_fails s).
  { injection Hrun as _ <-. done. }
  rewrite Hnn in Hrun. unfold call_ma_device_init in Hrun. cbn [mem] in Hrun.
  rewrite lookup_insert_ne in Hrun by congruence.
  rewrite Hcfg, lookup_insert_eq in Hrun.
  rewrite zig_ma_device_config_playback_data in Hrun by done.
  rewrite take_app_length' in Hrun by (symmetry; apply length_encode_config).
  rewrite decode_encode_config in Hrun.
  destruct (ma_device_init _ _) as [rc d] eqn:E.
  destruct (Z.eqb_spec rc MA_SUCCESS) as [Hrc|Hrc]; cbn [negb] in Hrun.
  2:{ unfold free in Hrun. rewrite Hnn in Hrun. cbn in Hrun.
      rewrite lookup_insert_eq in Hrun. injection Hrun as _ <-. done. }
  injection Hrun as <- <-.
  pose proof (Hneg _ _ _ _ E Hrc) as Hd. cbn in Hd.
  unfold zig_ma_device_get_sample_rate. cbn [mem set_mem log].
  rewrite lookup_insert_eq, Hd.
  split; [eexists; split; [reflexivity | exact Hd]|]. split; [reflexivity|]. split; [apply Hpos|].
  intros ->. reflexivity.
Qed.

(** C7 *)
(** C7: [zig_ma_device_start] and [zig_ma_device_get_sample_rate] do not
    check for [NULL]: given [NULL] they dereference it, which is undefined
    behaviour, while [zig_ma_device_uninit(NULL)] checks and returns; on a
    live handle (never [NULL]) both are defined. *)
Theorem zig_ma_device_null_handle `{Platform} s :
  wf s ->
  zig_ma_device_start NULL s = UB /\
  zig_ma_device_get_sample_rate NULL s = UB /\
  zig_ma_device_uninit NULL s = Ret s tt /\
  (forall p d, mem s !! p = Some (CDevice d) ->
     p <> NULL /\
     zig_ma_device_get_sample_rate p s = Ret s (Device.sampleRate d) /\
     exists s', zig_ma_device_start p s = Ret s' tt).
Proof.
  intros Hwf.
  assert (Hnull : mem s !! NULL = None).
  { destruct (mem s !! NULL) as [c|] eqn:E; [|done].
    destruct (wf_mapped_ne s NULL c Hwf E). done. }
  split; [|split; [|split]].
  - unfold zig_ma_device_start, bind, call_ma_device_start. by rewrite Hnull.
  - unfold zig_ma_device_get_sample_rate. by rewrite Hnull.
  - reflexivity.
  - intros p d Hd. destruct (wf_mapped_ne s p _ Hwf Hd) as [_ Hp].
    split; [done|]. unfold zig_ma_device_get_sample_rate. rewrite Hd.
    split; [reflexivity|].
    unfold zig_ma_device_start, bind, call_ma_device_start, ret. rewrite Hd.
    destruct (ma_device_start _ _). eauto.
Qed.

(** C10 *)
(** C10: [zig_ma_device_get_sample_rate] on a live handle is a pure read:
    it returns the device's [sampleRate] with the state unchanged, so the
    device record, the allocator and the trace (no malloc, free or native
    call) are as before. *)
Theorem zig_ma_device_get_sample_rate_pure `{Platform} s p d :
  mem s !! p = Some (CDevice d) ->
  zig_ma_device_get_sample_rate p s = Ret s (Device.sampleRate d).
Proof. intros Hd. unfold zig_ma_device_get_sample_rate. by rewrite Hd. Qed.

(** ** Witnesses: the theorems applied to the demo platform *)

Lemma demo_config_init_sets_type : config_init_sets_type (H := demo).
Proof. intros []; reflexivity. Qed.

Lemma demo_negotiates : negotiates_sample_rate (H := demo) demo_negotiate.
Proof.
  split.
  - intros r. unfold demo_negotiate. destruct (Z.leb_spec r 0); lia.
  - intros s c r d E ->. cbn in E. unfold demo_device_init in E.
    destruct (Z.eqb _ 7); inversion E; reflexivity.
Qed.

Lemma demo_state_wf : wf (demo_state (H := demo) 44100).
Proof. apply (bool_decide_unpack _). vm_compute. reflexivity. Qed.

Lemma zig_ma_device_init_result_witness :
  wf (demo_state (H := demo) 44100) /\
  mem (demo_state (H := demo) 44100) !! 1 = Some (CBlob (demo_blob 44100)) /\
  @decode_config demo (take 4 (data (demo_blob 44100))) = Some (demo_cfg 44100) /\
  zig_ma_device_init (H := demo) 1 (demo_state (H := demo) 44100) = Ret demo_after_init 2.
Proof.
  split; [exact demo_state_wf|]. split; [reflexivity|]. split; [vm_compute; reflexivity|].
  destruct (zig_ma_device_init_result (H := demo) (demo_state (H := demo) 44100) 1
              (demo_blob 44100) (demo_cfg 44100) demo_state_wf eq_refl
              ltac:(vm_compute; reflexivity)) as [_ Hok].
  destruct (Hok eq_refl) as (_ & _ & Hsucc & _).
  rewrite (Hsucc eq_refl). reflexivity.
Defined.

Lemma zig_ma_device_config_playback_fields_witness :
  static_assert_ok (H := demo) = true /\
  length (replicate 512 (MByte Byte.xff)) = zig_ma_device_config_size /\
  drop 4 (data (demo_blob 48000)) = replicate 508 (MByte Byte.x00).
Proof.
  split; [reflexivity|]. split; [reflexivity|].
  destruct (zig_ma_device_config_playback_fields (H := demo)
              (replicate 512 (MByte Byte.xff)) 48000 11 22 eq_refl
              demo_config_init_sets_type eq_refl) as (_ & _ & Hz).
  exact Hz.
Defined.

Lemma zig_ma_device_config_playback_deterministic_witness :
  zig_ma_device_config_playback (H := demo) (replicate 512 (MByte Byte.x00)) 44100 11 22 =
  zig_ma_device_config_playback (H := demo) (replicate 512 (MByte Byte.xff)) 44100 11 22.
Proof. apply zig_ma_device_config_playback_deterministic; reflexivity. Defined.

Lemma zig_ma_device_init_preserves_config_witness :
  zig_ma_device_init (H := demo) 1 (demo_state (H := demo) 44100) = Ret demo_after_init 2 /\
  mem demo_after_init !! 1 = Some (CBlob (demo_blob 44100)).
Proof.
  split; [reflexivity|].
  exact (zig_ma_device_init_preserves_config (H := demo) (demo_state (H := demo) 44100) 1
           (demo_blob 44100) demo_after_init 2 demo_state_wf eq_refl eq_refl).
Defined.

Lemma zig_ma_device_get_sample_rate_after_init_witness :
  zig_ma_device_get_sample_rate 2 demo_after_init = Ret demo_after_init 44100.
Proof.
  destruct (zig_ma_device_get_sample_rate_after_init (H := demo) demo_negotiate
              (demo_state (H := demo) 44100) 1 (replicate 512 (MByte Byte.xff)) 44100 11 22
              demo_after_init 2 demo_negotiates eq_refl demo_state_wf eq_refl eq_refl
              eq_refl ltac:(discriminate)) as (_ & _ & _ & Hhon).
  exact (Hhon eq_refl).
Defined.

Lemma zig_ma_device_null_handle_witness :
  zig_ma_device_start (H := demo) NULL (demo_state (H := demo) 44100) = UB /\
  zig_ma_device_get_sample_rate NULL (demo_state (H := demo) 44100) = UB.
Proof.
  destruct (zig_ma_device_null_handle (H := demo) (demo_state (H := demo) 44100)
              demo_state_wf) as (Hs & Hg & _).
  split; [exact Hs | exact Hg].
Defined.

Lemma zig_ma_device_get_sample_rate_pure_witness :
  zig_ma_device_get_sample_rate 2 demo_after_init = Ret demo_after_init 44100.
Proof.
  exact (zig_ma_device_get_sample_rate_pure (H := demo) demo_after_init 2
           (Device.mk 44100 []) eq_refl).
Defined.

Lemma zig_ma_device_uninit_spec_witness :
  zig_ma_device_uninit (H := demo) 2 demo_after_init =
  Ret (mkState (mem (demo_state (H := demo) 44100)) 3
         [EvMalloc 2; EvCall Call_ma_device_init 2;
          EvCall Call_ma_device_uninit 2; EvFree 2]) tt.
Proof.
  destruct (zig_ma_device_uninit_spec (H := demo) demo_after_init) as [_ Hlive].
  rewrite (Hlive 2 (Device.mk 44100 []) ltac:(discriminate) eq_refl).
  vm_compute. reflexivity.
Defined.

Lemma zig_ma_device_start_discards_result_witness :
  zig_ma_device_start (H := demo) 2 demo_after_init =
  zig_ma_device_start (H := with_start_result demo (-1)) 2 demo_after_init.
Proof. exact (proj1 (zig_ma_device_start_discards_result demo (-1) 2 demo_after_init)). Defined.

(** ** Further properties of the shim *)

Section Lifecycle.
Context `{Platform}.

(** The two ways [zig_ma_device_init] can return: [NULL] with memory as it
    was, or the allocator's fresh address holding an initialised device. *)
Lemma zig_ma_device_init_cases s config s' p :
  wf s -> zig_ma_device_init config s = Ret s' p ->
  (p = NULL /\ mem s' = mem s /\ (brk s' = brk s \/ brk s' = brk s + 1)) \/
  (p = brk s /\ p <> NULL /\ mem s !! p = None /\ brk s' = brk s + 1 /\
   trace s' = trace s ++ [EvMalloc p; EvCall Call_ma_device_init p] /\
   exists d, mem s' = <[p := CDevice d]> (mem s)).
Proof.
  intros Hwf Hrun.
  pose proof (wf_brk_fresh s Hwf) as Hfresh.
  pose proof (wf_brk_not_null s Hwf) as Hnn.
  unfold zig_ma_device_init, bind, malloc, ret in Hrun.
  destruct (malloc_fails s).
  { injection Hrun as <- <-. left. auto. }
  rewrite Hnn in Hrun. unfold call_ma_device_init in Hrun. cbn [mem] in Hrun.
  destruct (<[brk s:=CUninit]> (mem s) !! config) as [[b| |]|]; try discriminate.
  rewrite lookup_insert_eq in Hrun.
  destruct (decode_config _); [|discriminate].
  destruct (ma_device_init _ _) as [rc d].
  destruct (negb (Z.eqb rc MA_SUCCESS)).
  - unfold free in Hrun. rewrite Hnn in Hrun. cbn in Hrun.
    rewrite lookup_insert_eq in Hrun. injection Hrun as <- <-. left. cbn.
    rewrite !delete_insert_eq, delete_id by done. auto.
  - injection Hrun as <- <-. right. cbn.
    split; [done|]. split; [by apply Z.eqb_neq|]. split; [done|].
    split; [done|]. split; [by rewrite <- app_assoc|].
    exists d. by rewrite insert_insert_eq.
Qed.

Lemma zig_ma_device_init_wf s config s' p :
  wf s -> zig_ma_device_init config s = Ret s' p -> wf s'.
Proof.
  intros Hwf Hrun. pose proof Hwf as [Hb Hm].
  destruct (zig_ma_device_init_cases s config s' p Hwf Hrun)
    as [(_ & Hmem & Hbrk)|(-> & _ & _ & Hbrk & _ & d & Hmem)].
  - split; [lia|]. rewrite Hmem. intros q c Hq. apply Hm in Hq. lia.
  - split; [lia|]. rewrite Hmem. apply map_Forall_insert_2; [lia|].
    intros q c Hq. apply Hm in Hq. lia.
Qed.


(** [zig_ma_device_uninit] on a non-NULL live handle. *)
Lemma zig_ma_device_uninit_live s p d :
  p <> NULL -> mem s !! p = Some (CDevice d) ->
  zig_ma_device_uninit p s =
  Ret (mkState (delete p (mem s)) (brk s)
         (trace s ++ [EvCall Call_ma_device_uninit p; EvFree p])) tt.
Proof.
  intros Hp Hd. apply Z.eqb_neq in Hp.
  unfold zig_ma_device_uninit. rewrite Hp. cbn [negb].
  unfold bind, call_ma_device_uninit. rewrite Hd. cbn.
  unfold free. rewrite Hp. cbn. rewrite lookup_insert_eq, delete_insert_eq.
  by rewrite <- app_assoc.
Qed.

(** [zig_ma_device_start] on a live handle. *)
Lemma zig_ma_device_start_live s p d :
  mem s !! p = Some (CDevice d) ->
  zig_ma_device_start p s =
  Ret (set_mem (<[p := CDevice (snd (ma_device_start
                                       (log (EvCall Call_ma_device_start p) s) d))]>
                 (mem s))
               (log (EvCall Call_ma_device_start p) s)) tt.
Proof.
  intros Hd. unfold zig_ma_device_start, bind, call_ma_device_start, ret.
  rewrite Hd. by destruct (ma_device_start _ _).
Qed.

End Lifecycle.

(** X1: a device created by [zig_ma_device_init] and destroyed by
    [zig_ma_device_uninit] leaves no trace in memory: afterwards memory is
    exactly what it was before the init, and the calls made were malloc,
    [ma_device_init], [ma_device_uninit] and free of the handle. *)
Theorem init_uninit_restores_memory `{Platform} s config s1 p :
  wf s -> zig_ma_device_init config s = Ret s1 p -> p <> NULL ->
  exists s2, zig_ma_device_uninit p s1 = Ret s2 tt /\ mem s2 = mem s /\
    trace s2 = trace s ++ [EvMalloc p; EvCall Call_ma_device_init p;
                           EvCall Call_ma_device_uninit p; EvFree p].
Proof.
  intros Hwf Hrun Hp.
  destruct (zig_ma_device_init_cases s config s1 p Hwf Hrun)
    as [[? _]|(-> & _ & Hfresh & _ & Htr & d & Hmem)]; [done|].
  rewrite (zig_ma_device_uninit_live s1 (brk s) d Hp)
    by (rewrite Hmem; apply lookup_insert_eq).
  eexists. split; [reflexivity|]. cbn. rewrite Hmem, Htr.
  split; [by apply delete_insert_id | by rewrite <- app_assoc].
Qed.

(** X2: the same with the device started in between: init, start, uninit
    leave memory exactly as it was before the init. *)
Theorem init_start_uninit_restores_memory `{Platform} s config s1 p :
  wf s -> zig_ma_device_init config s = Ret s1 p -> p <> NULL ->
  exists s2 s3, zig_ma_device_start p s1 = Ret s2 tt /\
    zig_ma_device_uninit p s2 = Ret s3 tt /\ mem s3 = mem s.
Proof.
  intros Hwf Hrun Hp.
  destruct (zig_ma_device_init_cases s config s1 p Hwf Hrun)
    as [[? _]|(-> & _ & Hfresh & _ & _ & d & Hmem)]; [done|].
  assert (Hd : mem s1 !! brk s = Some (CDevice d)) by (rewrite Hmem; apply lookup_insert_eq).
  rewrite (zig_ma_device_start_live s1 (brk s) d Hd).
  eexists _, _. split; [reflexivity|].
  erewrite zig_ma_device_uninit_live; [| done | cbn; apply lookup_insert_eq].
  split; [reflexivity|]. cbn. rewrite Hmem, insert_insert_eq.
  by apply delete_insert_id.
Qed.


(** X4: a handle is dead after [zig_ma_device_uninit]: starting it,
    reading its sample rate or destroying it again is undefined behaviour. *)
Theorem use_after_uninit_undefined `{Platform} s p d s' :
  p <> NULL -> mem s !! p = Some (CDevice d) ->
  zig_ma_device_uninit p s = Ret s' tt ->
  zig_ma_device_start p s' = UB /\
  zig_ma_device_get_sample_rate p s' = UB /\
  zig_ma_device_uninit p s' = UB.
Proof.
  intros Hp Hd Hrun.
  rewrite (zig_ma_device_uninit_live s p d Hp Hd) in Hrun. injection Hrun as <-.
  assert (Hgone : mem (mkState (delete p (mem s)) (brk s)
            (trace s ++ [EvCall Call_ma_device_uninit p; EvFree p])) !! p = None)
    by apply lookup_delete_eq.
  split; [|split].
  - unfold zig_ma_device_start, bind, call_ma_device_start. by rewrite Hgone.
  - unfold zig_ma_device_get_sample_rate. by rewrite Hgone.
  - unfold zig_ma_device_uninit. apply Z.eqb_neq in Hp. rewrite Hp. cbn [negb].
    unfold bind, call_ma_device_uninit. by rewrite Hgone.
Qed.

(** X5: [zig_ma_device_init] touches no memory other than the block it
    returns: every other address holds what it held before, and the returned
    handle was unallocated before the call (it aliases no existing object). *)
Theorem init_frame `{Platform} s config s' p :
  wf s -> zig_ma_device_init config s = Ret s' p ->
  (forall q, q <> p -> mem s' !! q = mem s !! q) /\
  (p <> NULL -> mem s !! p = None).
Proof.
  intros Hwf Hrun.
  destruct (zig_ma_device_init_cases s config s' p Hwf Hrun)
    as [(-> & Hmem & _)|(-> & _ & Hfresh & _ & _ & d & Hmem)].
  - split; [by rewrite Hmem | done].
  - split; [|done]. intros q Hq. rewrite Hmem. by apply lookup_insert_ne.
Qed.

(** X6: two successful [zig_ma_device_init] calls in a row return distinct
    handles, and the first handle is still a live device after the second
    call. *)
Theorem init_handles_distinct `{Platform} s c1 c2 s1 s2 p1 p2 :
  wf s -> zig_ma_device_init c1 s = Ret s1 p1 -> p1 <> NULL ->
  zig_ma_device_init c2 s1 = Ret s2 p2 -> p2 <> NULL ->
  p1 <> p2 /\ exists d, mem s2 !! p1 = Some (CDevice d).
Proof.
  intros Hwf R1 N1 R2 N2.
  pose proof (zig_ma_device_init_wf s c1 s1 p1 Hwf R1) as Hwf1.
  destruct (zig_ma_device_init_cases s c1 s1 p1 Hwf R1)
    as [[? _]|(-> & _ & _ & Hb1 & _ & d1 & Hm1)]; [done|].
  destruct (zig_ma_device_init_cases s1 c2 s2 p2 Hwf1 R2)
    as [[? _]|(-> & _ & _ & _ & _ & d2 & Hm2)]; [done|].
  assert (Hne : brk s <> brk s1) by lia.
  split; [done|]. exists d1.
  rewrite Hm2, lookup_insert_ne by done. rewrite Hm1. apply lookup_insert_eq.
Qed.


(** X8: [zig_ma_device_init] on a blob built by
    [zig_ma_device_config_playback] (in a build where the static assertion
    holds) is always defined: it returns a handle or [NULL], whatever the
    allocator and the native initialisation do. *)
Theorem init_defined_on_playback_blob `{Platform} s config u rate cb ud :
  static_assert_ok = true -> wf s -> length u = zig_ma_device_config_size ->
  mem s !! config = Some (CBlob (zig_ma_device_config_playback u rate cb ud)) ->
  exists s' p, zig_ma_device_init config s = Ret s' p.
Proof.
  intros Hsa Hwf Hu Hcfg.
  destruct (wf_mapped_ne s config _ Hwf Hcfg) as [Hne _].
  pose proof (wf_brk_not_null s Hwf) as Hnn.
  unfold zig_ma_device_init, bind, malloc, ret.
  destruct (malloc_fails s); [eauto|].
  rewrite Hnn. unfold call_ma_device_init. cbn [mem].
  rewrite lookup_insert_ne by congruence. rewrite Hcfg, lookup_insert_eq.
  rewrite zig_ma_device_config_playback_data by done.
  rewrite take_app_length' by (symmetry; apply length_encode_config).
  rewrite decode_encode_config.
  destruct (ma_device_init _ _) as [rc d].
  destruct (negb (Z.eqb rc MA_SUCCESS)); [|eauto].
  unfold free. rewrite Hnn. cbn. rewrite lookup_insert_eq. eauto.
Qed.

(** ** Witnesses of the further properties *)

Lemma init_uninit_restores_memory_witness :
  exists s2, zig_ma_device_uninit (H := demo) 2 demo_after_init = Ret s2 tt /\
    mem s2 = mem (demo_state (H := demo) 44100).
Proof.
  destruct (init_uninit_restores_memory (H := demo) (demo_state (H := demo) 44100) 1
              demo_after_init 2 demo_state_wf eq_refl ltac:(discriminate))
    as (s2 & Hu & Hm & _).
  eauto.
Defined.

Lemma init_start_uninit_restores_memory_witness :
  exists s2 s3, zig_ma_device_start (H := demo) 2 demo_after_init = Ret s2 tt /\
    zig_ma_device_uninit (H := demo) 2 s2 = Ret s3 tt /\
    mem s3 = mem (demo_state (H := demo) 44100).
Proof.
  exact (init_start_uninit_restores_memory (H := demo) (demo_state (H := demo) 44100) 1
           demo_after_init 2 demo_state_wf eq_refl ltac:(discriminate)).
Defined.


Lemma use_after_uninit_undefined_witness :
  zig_ma_device_get_sample_rate 2
    (mkState (mem (demo_state (H := demo) 44100)) 3
       [EvMalloc 2; EvCall Call_ma_device_init 2;
        EvCall Call_ma_device_uninit 2; EvFree 2]) = UB.
Proof.
  exact (proj1 (proj2 (use_after_uninit_undefined (H := demo) demo_after_init 2
           (Device.mk 44100 []) _ ltac:(discriminate) eq_refl
           ltac:(vm_compute; reflexivity)))).
Defined.

Lemma init_frame_witness :
  mem demo_after_init !! 1 = mem (demo_state (H := demo) 44100) !! 1.
Proof.
  exact (proj1 (init_frame (H := demo) (demo_state (H := demo) 44100) 1 demo_after_init 2
           demo_state_wf eq_refl) 1 ltac:(discriminate)).
Defined.

Lemma init_handles_distinct_witness :
  (2 : ptr) <> 3.
Proof.
  exact (proj1 (init_handles_distinct (H := demo) (demo_state (H := demo) 44100) 1 1
           demo_after_init
           (mkState (<[3 := CDevice (Device.mk 44100 [])]> (mem demo_after_init)) 4
              [EvMalloc 2; EvCall Call_ma_device_init 2; EvMalloc 3; EvCall Call_ma_device_init 3])
           2 3 demo_state_wf eq_refl ltac:(discriminate) ltac:(vm_compute; reflexivity)
           ltac:(discriminate))).
Defined.


Lemma init_defined_on_playback_blob_witness :
  exists s' p, zig_ma_device_init (H := demo) 1 (demo_state (H := demo) 7) = Ret s' p.
Proof.
  exact (init_defined_on_playback_blob (H := demo) (demo_state (H := demo) 7) 1
           (replicate 512 (MByte Byte.xff)) 7 11 22 eq_refl
           ltac:(apply (bool_decide_unpack _); vm_compute; reflexivity) eq_refl eq_refl).
Defined.
